(** * The user-administration facet of api-systemmanager (src/api/admin/user.js)

    A shallow embedding of the [User] class: its response normaliser
    [_returnData], its header builder [_setHeader] and its three public
    operations [findById], [findByIdAndUpdatePassword] and [emailExist],
    followed by the properties of the request-execution contract.

    JavaScript values are a first-order datatype, exceptions and the injected
    HTTP client are threaded through a small state-and-exception monad, and a
    promise is represented by the way it settles. *)

From Stdlib Require Import ZArith List String Ascii Bool Lia Permutation.
From Stdlib Require Import DecimalString.
Import ListNotations.
Open Scope string_scope.

Set Warnings "-register-all".

(** ** JavaScript values *)

(** Numbers are restricted to integers: the only number user.js inspects is
    the status code [200].  [VObj] is a plain object, given by its own
    enumerable properties in insertion order.  [VError] is an instance of an
    error class: [name] and [message] are what [err.name] and [err.message]
    read (neither is enumerable), [props] are further own enumerable
    properties such as a [status] put there by an HTTP client. *)
Inductive value : Type :=
| VUndefined
| VNull
| VBool (b : bool)
| VNum (n : Z)
| VStr (s : string)
| VObj (props : list (string * value))
| VError (name : string) (message : string) (props : list (string * value)).

Fixpoint lookup (k : string) (props : list (string * value)) : option value :=
  match props with
  | [] => None
  | (k', v) :: rest => if String.eqb k k' then Some v else lookup k rest
  end.

(** [field o k] is the property [k] that a read of [o] finds, if any.
    Primitives carry none of the keys user.js reads ([status], [message],
    [data], [userId], [oldPassword], [newPassword]). *)
Definition field (o : value) (k : string) : option value :=
  match o with
  | VObj props => lookup k props
  | VError name message props =>
      if String.eqb k "message" then Some (VStr message)
      else if String.eqb k "name" then Some (VStr name)
      else lookup k props
  | _ => None
  end.

(** The value a read of [o[k]] yields, [undefined] when nothing is found. *)
Definition prop (o : value) (k : string) : value :=
  match field o k with
  | Some v => v
  | None => VUndefined
  end.

(** lodash [_.get(o, k, def)] for a single key: the default replaces a
    resolved value of [undefined], and a nullish [o] resolves to it too. *)
Definition _get (o : value) (k : string) (def : value) : value :=
  match field o k with
  | Some VUndefined => def
  | Some v => v
  | None => def
  end.

(** [v !== n] for a number literal [n]. *)
Definition strict_neq_num (v : value) (n : Z) : bool :=
  match v with
  | VNum m => negb (Z.eqb m n)
  | _ => true
  end.

(** The string a template literal substitutes for [v]. *)
Definition ToString (v : value) : string :=
  match v with
  | VUndefined => "undefined"
  | VNull => "null"
  | VBool true => "true"
  | VBool false => "false"
  | VNum n => NilZero.string_of_int (Z.to_int n)
  | VStr s => s
  | VObj _ => "[object Object]"
  | VError name message _ =>
      if String.eqb name "" then message
      else if String.eqb message "" then name
      else name ++ ": " ++ message
  end.

(** The own enumerable properties left by [const {k, ...rest} = o].  (The
    rest of a string would hold its characters; every operation has rejected
    such a [params] before it destructures.) *)
Definition rest_without (k : string) (o : value) : value :=
  match o with
  | VObj props | VError _ _ props =>
      VObj (filter (fun kv => negb (String.eqb (fst kv) k)) props)
  | _ => VObj []
  end.

(** ** The transport dispatcher *)

Inductive verb : Type := GET | POST | PUT.

Record request : Type := {
  req_verb : verb;
  req_path : string;
  req_body : option value;
  req_meta : value
}.

(** What awaiting a client call yields: a response, or a raised value.
    A call whose promise never settles has no case here: the runs
    described are those in which the client answers. *)
Inductive transport_result : Type :=
| Returns (response : value)
| Raises (ex : value).

(** One recorded invocation of the dispatcher. *)
Record call : Type := {
  call_request : request;
  call_result : transport_result
}.

(** ** Joi schemas used by the facet *)

Inductive schema : Type :=
| string_required          (* Joi.string().required() *)
| object_required          (* Joi.object().required() *)
| string_email_required.   (* Joi.string().email().required() *)

(** ** How a promise settles *)

(** [Pending] is a promise on which neither [resolve] nor [reject] is ever
    called: the async executor itself failed inside its [catch] block. *)
Inductive outcome : Type :=
| Resolved (v : value)
| Rejected (v : value)
| Pending.

Inductive completion (A : Type) : Type :=
| Normal (a : A)
| Throw (ex : value).
Arguments Normal {A} a.
Arguments Throw {A} ex.

(** ** Third-party behaviour

    What user.js uses of [@hapi/boom], [@hapi/joi] and the engine without
    defining it:
    - [Boom_badRequest m] is the error object [Boom.badRequest(m)] builds;
    - [is_email] is the format test of [Joi.string().email()];
    - [parses_as_object s] tells whether Joi's object schema, converting by
      default, reads the string [s] as a JSON object;
    - [joi_message sch v] is the message of the [ValidationError] that
      [Joi.assert(v, sch)] throws;
    - [type_error_message o k] is the engine's message for reading
      property [k] of a nullish [o]. *)
Record Library : Type := {
  Boom_badRequest : value -> value;
  is_email : string -> bool;
  parses_as_object : string -> bool;
  joi_message : schema -> value -> string;
  type_error_message : value -> string -> string
}.

Section Facet.

(** The state of the backing service behind the injected client. *)
Context {St : Type}.
Variable L : Library.

(** The shared HTTP client: [get(path, meta)], [post(path, body, meta)]
    and [put(path, body, meta)]. *)
Record Client : Type := {
  get : string -> value -> St -> transport_result * St;
  post : string -> value -> value -> St -> transport_result * St;
  put : string -> value -> value -> St -> transport_result * St
}.

(** The parent context, as far as the facet uses it. *)
Record Parent : Type := {
  dispatch_getClient : Client
}.

(** The fields the constructor sets on [self]: [parent] is
    [options.parent] and [client] is [parent.dispatch.getClient()]. *)
Record User : Type := {
  parent : Parent;
  client : Client
}.

(** [this] is the facet object, [backend] the state of the service the
    client talks to, [calls] the dispatcher invocations so far, oldest
    first. *)
Record world : Type := {
  this : User;
  backend : St;
  calls : list call
}.

Definition M (A : Type) : Type := world -> completion A * world.

Definition ret {A} (a : A) : M A := fun w => (Normal a, w).

Definition throw {A} (ex : value) : M A := fun w => (Throw ex, w).

Definition bind {A B} (m : M A) (f : A -> M B) : M B :=
  fun w =>
    match m w with
    | (Normal a, w') => f a w'
    | (Throw ex, w') => (Throw ex, w')
    end.

Notation "x <- m ;; k" := (bind m (fun x => k))
  (at level 61, m at next level, right associativity).
Notation "m ;;; k" := (bind m (fun _ => k))
  (at level 61, right associativity).

(** [o.k] as an expression: reading a property of [undefined] or [null]
    throws a [TypeError]. *)
Definition member (o : value) (k : string) : M value :=
  match o with
  | VUndefined | VNull => throw (VError "TypeError" (type_error_message L o k) [])
  | _ => ret (prop o k)
  end.

(** *** Joi *)

Definition Joi_validate (v : value) (sch : schema) : bool :=
  match sch, v with
  | string_required, VStr s => negb (String.eqb s "")
  | string_email_required, VStr s => negb (String.eqb s "") && is_email L s
  | object_required, VObj _ => true
  | object_required, VError _ _ _ => true
  | object_required, VStr s => parses_as_object L s
  | _, _ => false
  end.

(** The error has no [status] and no [data] property; its diagnostic
    properties, which user.js never reads, are left out. *)
Definition ValidationError (sch : schema) (v : value) : value :=
  VError "ValidationError" (joi_message L sch v) [].

Definition Joi_assert (v : value) (sch : schema) : M unit :=
  if Joi_validate v sch then ret tt else throw (ValidationError sch v).

(** *** The client, awaited *)

Definition dispatch (c : Client) (r : request) : St -> transport_result * St :=
  match req_verb r, req_body r with
  | GET, _ => get c (req_path r) (req_meta r)
  | POST, Some b => post c (req_path r) b (req_meta r)
  | POST, None => post c (req_path r) VUndefined (req_meta r)
  | PUT, Some b => put c (req_path r) b (req_meta r)
  | PUT, None => put c (req_path r) VUndefined (req_meta r)
  end.

(** Call the client of [self] once, record the invocation, and await it. *)
Definition await_call (r : request) : M value :=
  fun w =>
    let (res, b') := dispatch (client (this w)) r (backend w) in
    let w' := {| this := this w;
                 backend := b';
                 calls := calls w ++ [{| call_request := r; call_result := res |}] |} in
    match res with
    | Returns v => (Normal v, w')
    | Raises ex => (Throw ex, w')
    end.

Definition client_get (path : string) (meta : value) : M value :=
  await_call {| req_verb := GET; req_path := path; req_body := None; req_meta := meta |}.

Definition client_post (path : string) (body meta : value) : M value :=
  await_call {| req_verb := POST; req_path := path; req_body := Some body; req_meta := meta |}.

Definition client_put (path : string) (body meta : value) : M value :=
  await_call {| req_verb := PUT; req_path := path; req_body := Some body; req_meta := meta |}.

(** [new Promise(async (resolve, reject) => { try { ...; resolve(retData) }
    catch (ex) { reject(handler(ex)) } })]. *)
Definition new_Promise (try_block : M value) (catch_block : value -> M value)
  : world -> outcome * world :=
  fun w =>
    match try_block w with
    | (Normal retData, w') => (Resolved retData, w')
    | (Throw ex, w') =>
        match catch_block ex w' with
        | (Normal err, w'') => (Rejected err, w'')
        | (Throw _, w'') => (Pending, w'')
        end
    end.

(** *** The class *)

(** [_returnData(retData, def = {})]; the default applies when the argument
    is [undefined], which is how every caller in the class invokes it. *)
Definition _returnData (retData : value) (def : value) : M value :=
  let def := match def with VUndefined => VObj [] | _ => def end in
  status <- member retData "status" ;;
  if strict_neq_num status 200 then
    ret (Boom_badRequest L (_get retData "message" (VStr "No error message reported!")))
  else
    ret (_get retData "data" def).

Definition _setHeader (session : value) : value :=
  VObj [("headers", VObj [("authorization", session)])].

Definition findById (userId session : value) : world -> outcome * world :=
  new_Promise
    (Joi_assert userId string_required ;;;
     Joi_assert session string_required ;;;
     response <- client_get ("/admin/users/" ++ ToString userId) (_setHeader session) ;;
     _returnData response VUndefined)
    (fun ex => _returnData ex VUndefined).

Definition findByIdAndUpdatePassword (params session : value)
  : world -> outcome * world :=
  new_Promise
    (Joi_assert params object_required ;;;
     params_userId <- member params "userId" ;;
     Joi_assert params_userId string_required ;;;
     params_oldPassword <- member params "oldPassword" ;;
     Joi_assert params_oldPassword string_required ;;;
     params_newPassword <- member params "newPassword" ;;
     Joi_assert params_newPassword string_required ;;;
     Joi_assert session string_required ;;;
     (* const {userId, ...payload} = params; *)
     let userId := prop params "userId" in
     let payload := rest_without "userId" params in
     response <- client_put ("/admin/users/" ++ ToString userId ++ "/password")
                            payload (_setHeader session) ;;
     _returnData response VUndefined)
    (fun ex => _returnData ex VUndefined).

Definition emailExist (email session : value) : world -> outcome * world :=
  new_Promise
    (Joi_assert email string_email_required ;;;
     Joi_assert session string_required ;;;
     let payload := VObj [("email", email)] in
     response <- client_post "/admin/users/email/exist" payload (_setHeader session) ;;
     _returnData response VUndefined)
    (fun ex => _returnData ex VUndefined).

(** *** One invocation of a public operation *)

Inductive operation : Type :=
| op_findById (userId session : value)
| op_findByIdAndUpdatePassword (params session : value)
| op_emailExist (email session : value).

Definition invoke (op : operation) : world -> outcome * world :=
  match op with
  | op_findById userId session => findById userId session
  | op_findByIdAndUpdatePassword params session =>
      findByIdAndUpdatePassword params session
  | op_emailExist email session => emailExist email session
  end.

(** Whether every [Joi.assert] of the operation passes. *)
Definition validates (op : operation) : bool :=
  match op with
  | op_findById userId session =>
      Joi_validate userId string_required
      && Joi_validate session string_required
  | op_findByIdAndUpdatePassword params session =>
      Joi_validate params object_required
      && Joi_validate (prop params "userId") string_required
      && Joi_validate (prop params "oldPassword") string_required
      && Joi_validate (prop params "newPassword") string_required
      && Joi_validate session string_required
  | op_emailExist email session =>
      Joi_validate email string_email_required
      && Joi_validate session string_required
  end.

(** The single request the operation hands to the client. *)
Definition request_of (op : operation) : request :=
  match op with
  | op_findById userId session =>
      {| req_verb := GET;
         req_path := "/admin/users/" ++ ToString userId;
         req_body := None;
         req_meta := _setHeader session |}
  | op_findByIdAndUpdatePassword params session =>
      {| req_verb := PUT;
         req_path := "/admin/users/" ++ ToString (prop params "userId") ++ "/password";
         req_body := Some (rest_without "userId" params);
         req_meta := _setHeader session |}
  | op_emailExist email session =>
      {| req_verb := POST;
         req_path := "/admin/users/email/exist";
         req_body := Some (VObj [("email", email)]);
         req_meta := _setHeader session |}
  end.

(** What is left of an operation once its assertions have passed: the
    call, and the two uses of [_returnData]. *)
Definition dispatched (op : operation) : world -> outcome * world :=
  new_Promise
    (response <- await_call (request_of op) ;;
     _returnData response VUndefined)
    (fun ex => _returnData ex VUndefined).

(** The world after the client answered [r] with [res] and moved the
    backing service to [b]. *)
Definition recorded (w : world) (r : request) (res : transport_result) (b : St)
  : world :=
  {| this := this w;
     backend := b;
     calls := calls w ++ [{| call_request := r; call_result := res |}] |}.

End Facet.

Arguments Client St : clear implicits.
Arguments Parent St : clear implicits.
Arguments User St : clear implicits.
Arguments world St : clear implicits.
Arguments M St A : clear implicits.

(** ** Vocabulary of the properties *)

Definition nullish (v : value) : bool :=
  match v with
  | VUndefined | VNull => true
  | _ => false
  end.

Definition is_string (v : value) : bool :=
  match v with
  | VStr _ => true
  | _ => false
  end.

Definition nonempty_string (v : value) : bool :=
  match v with
  | VStr s => negb (String.eqb s "")
  | _ => false
  end.

(** A response, or raised value, whose [status] is exactly the number 200. *)
Definition status_200 (r : value) : bool :=
  negb (nullish r) && negb (strict_neq_num (prop r "status") 200).

(** A response, or raised value, whose [status] is anything else, a missing
    status included. *)
Definition status_other (r : value) : bool :=
  negb (nullish r) && strict_neq_num (prop r "status") 200.

(** A required argument is missing or of the wrong type: an identifier,
    session or email that is not a string, or a [params] without a non-empty
    string under one of its three keys (a missing [params] has none). *)
Definition ill_typed (op : operation) : bool :=
  match op with
  | op_findById userId session =>
      negb (is_string userId) || negb (is_string session)
  | op_findByIdAndUpdatePassword params session =>
      negb (nonempty_string (prop params "userId"))
      || negb (nonempty_string (prop params "oldPassword"))
      || negb (nonempty_string (prop params "newPassword"))
      || negb (is_string session)
  | op_emailExist email session =>
      negb (is_string email) || negb (is_string session)
  end.

(** A plain object with a [status] property and a string [message]. *)
Definition plain_status_message (v : value) : bool :=
  match v with
  | VObj props =>
      match lookup "status" props, lookup "message" props with
      | Some _, Some (VStr _) => true
      | _, _ => false
      end
  | _ => false
  end.

Definition placeholder : value := VStr "No error message reported!".

(** The response a transport result returns, or the value it raises. *)
Definition carried (res : transport_result) : value :=
  match res with
  | Returns v => v
  | Raises v => v
  end.

(** How the promise of an operation settles on the awaited result of its
    transport call, read off the [try] and [catch] branches. *)
Definition settle (L : Library) (res : transport_result) : outcome :=
  match res with
  | Returns r =>
      if nullish r then
        Rejected (Boom_badRequest L (VStr (type_error_message L r "status")))
      else if strict_neq_num (prop r "status") 200 then
        Resolved (Boom_badRequest L (_get r "message" placeholder))
      else
        Resolved (_get r "data" (VObj []))
  | Raises ex =>
      if nullish ex then Pending
      else if strict_neq_num (prop ex "status") 200 then
        Rejected (Boom_badRequest L (_get ex "message" placeholder))
      else
        Rejected (_get ex "data" (VObj []))
  end.

(** ** Stubs for concrete runs

    Stand-ins for the third-party behaviour and for the injected client,
    used only to evaluate the operations on concrete inputs. *)

Module Stub.

Fixpoint has_at (s : string) : bool :=
  match s with
  | EmptyString => false
  | String c rest => Ascii.eqb c "@"%char || has_at rest
  end.

Definition lib : Library := {|
  Boom_badRequest := fun m =>
    VError "Error" (ToString m)
           [("isBoom", VBool true);
            ("output", VObj [("statusCode", VNum 400)])];
  is_email := has_at;
  parses_as_object := fun _ => false;
  joi_message := fun sch _ =>
    match sch with
    | string_required => "value must be a string"
    | object_required => "value must be an object"
    | string_email_required => "value must be a valid email"
    end;
  type_error_message := fun _ k => "Cannot read property " ++ k
|}.

(** A client that answers every call with [res] and counts its calls. *)
Definition answering (res : transport_result) : Client nat := {|
  get := fun _ _ n => (res, Datatypes.S n);
  post := fun _ _ _ n => (res, Datatypes.S n);
  put := fun _ _ _ n => (res, Datatypes.S n)
|}.

Definition facing (res : transport_result) : world nat :=
  let p := {| dispatch_getClient := answering res |} in
  {| this := {| parent := p; client := dispatch_getClient p |};
     backend := 0%nat;
     calls := [] |}.

Definition token : value := VStr "eyJhbGciOiJIUzI1NiIsInR5cCI6IkpXVCJ9".

Definition ana : value :=
  VObj [("_id", VStr "55e4a3bd6be6b45210833fae"); ("email", VStr "ana@x.com")].

Definition password_params : value :=
  VObj [("oldPassword", VStr "a"); ("userId", VStr "u1"); ("newPassword", VStr "b")].

Definition found : value := VObj [("status", VNum 200); ("data", ana)].

Definition not_found : value :=
  VObj [("status", VNum 404); ("message", VStr "Not found")].

Definition teapot : value := VObj [("status", VNum 418)].

Definition undefined_data : value :=
  VObj [("status", VNum 200); ("data", VUndefined)].

Definition raised_200 : value := VObj [("status", VNum 200)].

End Stub.

(** ** The constructor *)

Section Construction.

Context {St : Type}.
Variable L : Library.

(** The engine's message for calling a property that holds no function. *)
Variable not_a_function_message : value -> string -> string.

(** What a caller passes as [options].  A [value] holds no functions, so an
    [options] given as a value has no [parent.dispatch.getClient] to call,
    whatever its [parent] property is; [options_with_parent p] is an object
    whose [parent] is the parent context [p]. *)
Inductive constructor_options : Type :=
| plain_options (v : value)
| options_with_parent (p : Parent St).

(** [constructor(options)] runs outside any promise: what it throws reaches
    the caller of [new User(options)] as it is. *)
Definition constructor (options : constructor_options) : completion (User St) :=
  match options with
  | plain_options v =>
      if negb (Joi_validate L v object_required) then
        Throw (ValidationError L object_required v)
      else
        let options_parent := prop v "parent" in
        if negb (Joi_validate L options_parent object_required) then
          Throw (ValidationError L object_required options_parent)
        else
          let dispatch := prop options_parent "dispatch" in
          match dispatch with
          | VUndefined | VNull =>
              Throw (VError "TypeError" (type_error_message L dispatch "getClient") [])
          | _ =>
              Throw (VError "TypeError" (not_a_function_message dispatch "getClient") [])
          end
  | options_with_parent p =>
      Normal {| parent := p; client := dispatch_getClient p |}
  end.

End Construction.

(** ** Further vocabulary *)

Definition session_of (op : operation) : value :=
  match op with
  | op_findById _ session => session
  | op_findByIdAndUpdatePassword _ session => session
  | op_emailExist _ session => session
  end.

(** The [Joi.assert] calls of an operation, in source order. *)
Definition assertions (op : operation) : list (value * schema) :=
  match op with
  | op_findById userId session =>
      [(userId, string_required); (session, string_required)]
  | op_findByIdAndUpdatePassword params session =>
      [(params, object_required);
       (prop params "userId", string_required);
       (prop params "oldPassword", string_required);
       (prop params "newPassword", string_required);
       (session, string_required)]
  | op_emailExist email session =>
      [(email, string_email_required); (session, string_required)]
  end.

(** The first of them that fails, if any. *)
Definition first_failure (L : Library) (op : operation) : option (value * schema) :=
  find (fun a => negb (Joi_validate L (fst a) (snd a))) (assertions op).

(** An identifier, session or email given as the empty string. *)
Definition empty_argument (op : operation) : bool :=
  let is_empty v := match v with VStr s => String.eqb s "" | _ => false end in
  match op with
  | op_findById userId session => is_empty userId || is_empty session
  | op_findByIdAndUpdatePassword _ session => is_empty session
  | op_emailExist email session => is_empty email || is_empty session
  end.

(** The own enumerable properties of a value, the ones a rest pattern
    copies. *)
Definition own_enumerable (v : value) : list (string * value) :=
  match v with
  | VObj props => props
  | VError _ _ props => props
  | _ => []
  end.

(** The one application of a method of the facet's client that an
    operation makes once its assertions have passed: the result the call
    yields and the state it leaves the backing service in. *)
Definition client_answer {St : Type} (op : operation) (w : world St)
  : transport_result * St :=
  match op with
  | op_findById userId session =>
      get (client (this w))
          ("/admin/users/" ++ ToString userId)
          (_setHeader session) (backend w)
  | op_findByIdAndUpdatePassword params session =>
      put (client (this w))
          ("/admin/users/" ++ ToString (prop params "userId") ++ "/password")
          (rest_without "userId" params)
          (_setHeader session) (backend w)
  | op_emailExist email session =>
      post (client (this w))
           "/admin/users/email/exist"
           (VObj [("email", email)])
           (_setHeader session) (backend w)
  end.

(** Two facts about [@hapi/boom] that statements on the message of a
    rejection or resolution value depend on: the error [Boom.badRequest]
    returns for a non-empty string has that string as its message, and the
    error it returns for any argument has a string as its message. *)
Definition keeps_string_message (L : Library) : Prop :=
  forall s, s <> "" -> prop (Boom_badRequest L (VStr s)) "message" = VStr s.

Definition message_is_string (L : Library) : Prop :=
  forall m, exists s, prop (Boom_badRequest L m) "message" = VStr s.

Module CallStub.

Definition falsy (v : value) : bool :=
  match v with
  | VUndefined | VNull | VBool false | VNum 0 | VStr EmptyString => true
  | _ => false
  end.

(** [Stub.lib] with the rule of [@hapi/boom] for a falsy message: the
    error takes the reason phrase of its status code for message. *)
Definition boom_like : Library := {|
  Boom_badRequest := fun m =>
    VError "Error"
           (if falsy m then "Bad Request"
            else match m with
                 | VError _ message _ => message
                 | _ => ToString m
                 end)
           [("isBoom", VBool true);
            ("output", VObj [("statusCode", VNum 400)])];
  is_email := is_email Stub.lib;
  parses_as_object := parses_as_object Stub.lib;
  joi_message := joi_message Stub.lib;
  type_error_message := type_error_message Stub.lib
|}.

Definition blank_message : value :=
  VObj [("status", VNum 404); ("message", VStr "")].

Definition failed_lookup : value :=
  VError "Error" "Request failed" [("userId", VStr "u1"); ("oldPassword", VStr "a");
                                   ("newPassword", VStr "b")].

Definition not_a_function (v : value) (k : string) : string :=
  k ++ " is not a function".

Definition network_error : value := VError "Error" "socket hang up" [].

Definition extended_params : value :=
  VObj [("userId", VStr "u1"); ("oldPassword", VStr "a");
        ("newPassword", VStr "b"); ("logout", VBool true)].

End CallStub.

(** * Properties *)

Section Properties.

Context {St : Type}.
Variable L : Library.

Implicit Types (w : world St) (op : operation) (o : outcome).

(** ** The normaliser *)

Lemma returnData_nullish (r : value) w :
  nullish r = true ->
  _returnData L r VUndefined w
  = (Throw (VError "TypeError" (type_error_message L r "status") []), w).
Proof.
  destruct r; simpl; intros H; try discriminate H; reflexivity.
Qed.

Lemma returnData_value (r : value) w :
  nullish r = false ->
  _returnData L r VUndefined w
  = (Normal (if strict_neq_num (prop r "status") 200
             then Boom_badRequest L (_get r "message" placeholder)
             else _get r "data" (VObj [])), w).
Proof.
  intros H; destruct r; try discriminate H;
    cbv beta iota delta [_returnData bind member ret];
    match goal with
    | |- context [strict_neq_num ?s 200] => destruct (strict_neq_num s 200)
    end; reflexivity.
Qed.

(** The error thrown by a failed [Joi.assert] is normalised to a bad
    request carrying Joi's message. *)
Lemma returnData_ValidationError (sch : schema) (v : value) w :
  _returnData L (ValidationError L sch v) VUndefined w
  = (Normal (Boom_badRequest L (VStr (joi_message L sch v))), w).
Proof. reflexivity. Qed.

(** ** The shape of every run *)

Lemma invoke_valid op w :
  validates L op = true -> invoke L op w = dispatched L op w.
Proof.
  destruct op as [u s | p s | e s]; cbn [validates invoke]; intros H;
    repeat (apply andb_prop in H; destruct H as [H ?]).
  - unfold findById, dispatched, new_Promise, bind, Joi_assert.
    rewrite H, H0. reflexivity.
  - assert (Hp : nullish p = false).
    { destruct p; simpl in H; try discriminate H; reflexivity. }
    unfold findByIdAndUpdatePassword, dispatched, new_Promise, bind, Joi_assert.
    rewrite H.
    destruct p; try discriminate Hp; try discriminate H;
      cbv beta iota delta [member ret];
      rewrite H3, H2, H1, H0; reflexivity.
  - unfold emailExist, dispatched, new_Promise, bind, Joi_assert.
    rewrite H, H0. reflexivity.
Qed.

Lemma dispatched_settles op w :
  dispatched L op w
  = (settle L (fst (dispatch (client (this w)) (request_of op) (backend w))),
     recorded w (request_of op)
              (fst (dispatch (client (this w)) (request_of op) (backend w)))
              (snd (dispatch (client (this w)) (request_of op) (backend w)))).
Proof.
  unfold dispatched, new_Promise, bind, await_call, recorded.
  destruct (dispatch (client (this w)) (request_of op) (backend w)) as [res b].
  cbn [fst snd settle].
  destruct res as [r | ex].
  - cbn [settle]. destruct (nullish r) eqn:Hr.
    + rewrite (returnData_nullish _ _ Hr).
      rewrite returnData_value by reflexivity. reflexivity.
    + rewrite (returnData_value _ _ Hr).
      destruct (strict_neq_num (prop r "status") 200); reflexivity.
  - cbn [settle]. destruct (nullish ex) eqn:Hx.
    + rewrite (returnData_nullish _ _ Hx). reflexivity.
    + rewrite (returnData_value _ _ Hx).
      destruct (strict_neq_num (prop ex "status") 200); reflexivity.
Qed.

Lemma invoke_invalid op w :
  validates L op = false ->
  exists sch v,
    Joi_validate L v sch = false
    /\ invoke L op w
       = (Rejected (Boom_badRequest L (VStr (joi_message L sch v))), w).
Proof.
  destruct op as [u s | p s | e s]; cbn [validates invoke]; intros H.
  - unfold findById, new_Promise, bind, Joi_assert.
    destruct (Joi_validate L u string_required) eqn:Hu.
    + destruct (Joi_validate L s string_required) eqn:Hs; [discriminate H|].
      exists string_required, s. split; [exact Hs | reflexivity].
    + exists string_required, u. split; [exact Hu | reflexivity].
  - unfold findByIdAndUpdatePassword, new_Promise, bind, Joi_assert.
    destruct (Joi_validate L p object_required) eqn:Hp.
    + assert (Hn : nullish p = false).
      { destruct p; try discriminate Hp; reflexivity. }
      destruct p; try discriminate Hn; try discriminate Hp;
        cbv beta iota delta [member ret];
        (destruct (Joi_validate L (prop _ "userId") string_required) eqn:H1;
         [ destruct (Joi_validate L (prop _ "oldPassword") string_required) eqn:H2;
           [ destruct (Joi_validate L (prop _ "newPassword") string_required) eqn:H3;
             [ destruct (Joi_validate L s string_required) eqn:H4;
               [ discriminate H
               | exists string_required, s; split; [exact H4 | reflexivity] ]
             | eexists string_required, _; split; [exact H3 | reflexivity] ]
           | eexists string_required, _; split; [exact H2 | reflexivity] ]
         | eexists string_required, _; split; [exact H1 | reflexivity] ]).
    + exists object_required, p. split; [exact Hp | reflexivity].
  - unfold emailExist, new_Promise, bind, Joi_assert.
    destruct (Joi_validate L e string_email_required) eqn:He.
    + destruct (Joi_validate L s string_required) eqn:Hs; [discriminate H|].
      exists string_required, s. split; [exact Hs | reflexivity].
    + exists string_email_required, e. split; [exact He | reflexivity].
Qed.

(** Every run either fails an assertion and leaves the world alone, or
    makes its one call and settles on the result. *)
Lemma invoke_run op w :
  (validates L op = false
   /\ exists sch v,
        Joi_validate L v sch = false
        /\ invoke L op w
           = (Rejected (Boom_badRequest L (VStr (joi_message L sch v))), w))
  \/ (validates L op = true
      /\ exists res b,
           dispatch (client (this w)) (request_of op) (backend w) = (res, b)
           /\ invoke L op w = (settle L res, recorded w (request_of op) res b)).
Proof.
  destruct (validates L op) eqn:Hv.
  - right. split; [reflexivity|].
    rewrite (invoke_valid _ _ Hv), dispatched_settles.
    destruct (dispatch (client (this w)) (request_of op) (backend w)) as [res b].
    exists res, b. split; reflexivity.
  - left. split; [reflexivity|]. apply invoke_invalid, Hv.
Qed.

Lemma no_self_extension (A : Type) (l : list A) (a : A) : l <> (l ++ [a])%list.
Proof.
  intros H. apply (f_equal (@List.length A)) in H.
  rewrite last_length in H. lia.
Qed.

(** A run whose log grew by one entry is a validated run that settled on
    the recorded result. *)
Lemma logged_call op w o w' (r : request) (res : transport_result) :
  invoke L op w = (o, w') ->
  calls w' = (calls w ++ [{| call_request := r; call_result := res |}])%list ->
  validates L op = true /\ r = request_of op /\ o = settle L res.
Proof.
  intros Hrun Hlog.
  destruct (invoke_run op w) as [[Hv (sch & v & _ & E)] | [Hv (res' & b & _ & E)]];
    rewrite E in Hrun; inversion Hrun; subst o w'.
  - exfalso. exact (no_self_extension _ _ _ Hlog).
  - cbn [recorded calls] in Hlog. apply app_inv_head in Hlog.
    inversion Hlog. subst. split; [exact Hv | split; reflexivity].
Qed.

Lemma get_present (r : value) (k : string) (x def : value) :
  field r k = Some x -> x <> VUndefined -> _get r k def = x.
Proof.
  unfold _get. intros -> Hx. destruct x; try reflexivity. contradiction.
Qed.

Lemma get_absent (r : value) (k : string) (def : value) :
  field r k = None \/ field r k = Some VUndefined -> _get r k def = def.
Proof.
  unfold _get. intros [-> | ->]; reflexivity.
Qed.

(** ** Returned responses *)

(** C1, as amended: when the transport call returns a response whose
    status is not 200, the promise is resolved, not rejected, with the
    error object [Boom.badRequest] returns for the response's message
    field, or for the placeholder when that field is missing or
    [undefined]; and, [Boom.badRequest] keeping a non-empty string as the
    message of its error, a message field that is a non-empty string is the
    message of that error verbatim. *)
Theorem non_200_response_resolves_with_bad_request
    op w o w' (r : request) (resp : value) :
  invoke L op w = (o, w') ->
  calls w' = (calls w ++ [{| call_request := r; call_result := Returns resp |}])%list ->
  status_other resp = true ->
  o = Resolved (Boom_badRequest L (_get resp "message" placeholder))
  /\ (forall m, field resp "message" = Some m -> m <> VUndefined ->
                o = Resolved (Boom_badRequest L m))
  /\ (keeps_string_message L ->
      forall s, field resp "message" = Some (VStr s) -> s <> "" ->
                exists e, o = Resolved e /\ prop e "message" = VStr s).
Proof.
  intros Hrun Hlog Hst.
  destruct (logged_call _ _ _ _ _ _ Hrun Hlog) as (_ & _ & ->).
  apply andb_prop in Hst. destruct Hst as [Hn Hs].
  apply negb_true_iff in Hn.
  cbn [settle]. rewrite Hn, Hs. split; [reflexivity | split].
  - intros m Hm Hu. rewrite (get_present _ _ _ _ Hm Hu). reflexivity.
  - intros Hk s Hm Hne.
    assert (Hu : VStr s <> VUndefined) by discriminate.
    rewrite (get_present _ _ _ _ Hm Hu).
    eexists. split; [reflexivity | apply Hk, Hne].
Qed.

(** C2, as amended: when the transport call returns a response whose
    status is exactly 200, a data field holding a value [X] other than
    [undefined] resolves the promise with exactly [X], and a data field
    that is missing or holds [undefined] resolves it with an empty
    object. *)
Theorem status_200_response_resolves_with_data
    op w o w' (r : request) (resp : value) :
  invoke L op w = (o, w') ->
  calls w' = (calls w ++ [{| call_request := r; call_result := Returns resp |}])%list ->
  status_200 resp = true ->
  (forall X, field resp "data" = Some X -> X <> VUndefined -> o = Resolved X)
  /\ (field resp "data" = None \/ field resp "data" = Some VUndefined ->
      o = Resolved (VObj [])).
Proof.
  intros Hrun Hlog Hst.
  destruct (logged_call _ _ _ _ _ _ Hrun Hlog) as (_ & _ & ->).
  apply andb_prop in Hst. destruct Hst as [Hn Hs].
  apply negb_true_iff in Hn. apply negb_true_iff in Hs.
  cbn [settle]. rewrite Hn, Hs. split.
  - intros X HX Hu. rewrite (get_present _ _ _ _ HX Hu). reflexivity.
  - intros Hd. rewrite (get_absent _ _ _ Hd). reflexivity.
Qed.

(** C4: when the transport result, returned or raised, has a status other
    than 200 and no message field, the error the operation settles with is
    the bad request whose message is exactly
    "No error message reported!". *)
Theorem missing_message_gets_placeholder
    op w o w' (r : request) (res : transport_result) :
  invoke L op w = (o, w') ->
  calls w' = (calls w ++ [{| call_request := r; call_result := res |}])%list ->
  status_other (carried res) = true ->
  field (carried res) "message" = None ->
  match res with
  | Returns _ =>
      o = Resolved (Boom_badRequest L (VStr "No error message reported!"))
  | Raises _ =>
      o = Rejected (Boom_badRequest L (VStr "No error message reported!"))
  end.
Proof.
  intros Hrun Hlog Hst Hm.
  destruct (logged_call _ _ _ _ _ _ Hrun Hlog) as (_ & _ & ->).
  apply andb_prop in Hst. destruct Hst as [Hn Hs].
  apply negb_true_iff in Hn.
  destruct res as [v | v]; cbn [carried] in *; cbn [settle];
    rewrite Hn, Hs, (get_absent _ _ _ (or_introl Hm)); reflexivity.
Qed.

(** ** Raised values *)

(** C10: when the transport call raises a value whose status is 200, the
    promise is rejected with that value's data field, an empty object
    standing in for a missing one; no error object is built. *)
Theorem raised_status_200_rejects_with_data
    op w o w' (r : request) (ex : value) :
  invoke L op w = (o, w') ->
  calls w' = (calls w ++ [{| call_request := r; call_result := Raises ex |}])%list ->
  status_200 ex = true ->
  o = Rejected (_get ex "data" (VObj []))
  /\ (forall X, field ex "data" = Some X -> X <> VUndefined -> o = Rejected X)
  /\ (field ex "data" = None -> o = Rejected (VObj [])).
Proof.
  intros Hrun Hlog Hst.
  destruct (logged_call _ _ _ _ _ _ Hrun Hlog) as (_ & _ & ->).
  apply andb_prop in Hst. destruct Hst as [Hn Hs].
  apply negb_true_iff in Hn. apply negb_true_iff in Hs.
  cbn [settle]. rewrite Hn, Hs. split; [reflexivity | split].
  - intros X HX Hu. rewrite (get_present _ _ _ _ HX Hu). reflexivity.
  - intros Hd. rewrite (get_absent _ _ _ (or_introl Hd)). reflexivity.
Qed.

(** C7, as amended: whenever the promise rejects, the rejection value is
    the error object [Boom.badRequest] returns for a message, namely
    Joi's message after a failed assertion (the dispatcher not having been
    invoked), the engine's TypeError message after a [null] or [undefined]
    response, and the message field of the raised value, or the
    placeholder, after a raise whose status is not 200; that error carries
    a string message, [Boom.badRequest] giving its errors one.  The one
    exception is a raise whose status is 200: the rejection value is then
    the data field of the raised value, an empty object when missing. *)
Theorem rejection_values op w (v : value) w' :
  invoke L op w = (Rejected v, w') ->
  (exists m,
      v = Boom_badRequest L m
      /\ ((exists sch x,
              Joi_validate L x sch = false
              /\ m = VStr (joi_message L sch x)
              /\ w' = w)
          \/ (exists r resp,
                calls w' = (calls w ++ [{| call_request := r;
                                           call_result := Returns resp |}])%list
                /\ nullish resp = true
                /\ m = VStr (type_error_message L resp "status"))
          \/ (exists r ex,
                calls w' = (calls w ++ [{| call_request := r;
                                           call_result := Raises ex |}])%list
                /\ status_other ex = true
                /\ m = _get ex "message" placeholder))
      /\ (message_is_string L -> exists s, prop v "message" = VStr s))
  \/ (exists r ex,
        calls w' = (calls w ++ [{| call_request := r; call_result := Raises ex |}])%list
        /\ status_200 ex = true
        /\ v = _get ex "data" (VObj [])).
Proof.
  intros Hrun.
  destruct (invoke_run op w) as [[Hv (sch & x & Hx & E)] | [Hv (res & b & _ & E)]];
    rewrite E in Hrun; inversion Hrun as [[Ho Hw]]; clear Hrun.
  - left. eexists. split; [reflexivity | split].
    + left. exists sch, x. repeat split. exact Hx.
    + intros Hm. apply Hm.
  - destruct res as [resp | ex]; cbn [settle] in Ho.
    + destruct (nullish resp) eqn:Hn.
      * inversion Ho. left. eexists. split; [reflexivity | split].
        -- right. left. exists (request_of op), resp. repeat split. exact Hn.
        -- intros Hm. apply Hm.
      * destruct (strict_neq_num (prop resp "status") 200); discriminate Ho.
    + destruct (nullish ex) eqn:Hn; [discriminate Ho|].
      destruct (strict_neq_num (prop ex "status") 200) eqn:Hs;
        inversion Ho.
      * left. eexists. split; [reflexivity | split].
        -- right. right. exists (request_of op), ex. unfold status_other.
           rewrite Hn, Hs. repeat split.
        -- intros Hm. apply Hm.
      * right. exists (request_of op), ex. unfold status_200.
        rewrite Hn, Hs. repeat split.
Qed.

(** ** Validation comes first *)

Lemma not_string_fails (v : value) :
  is_string v = false ->
  Joi_validate L v string_required = false
  /\ Joi_validate L v string_email_required = false.
Proof.
  destruct v; intros H; try discriminate H; split; reflexivity.
Qed.

Lemma string_required_iff (v : value) :
  Joi_validate L v string_required = nonempty_string v.
Proof. destruct v; reflexivity. Qed.

Lemma ill_typed_fails op : ill_typed op = true -> validates L op = false.
Proof.
  destruct op as [u s | p s | e s]; cbn [ill_typed validates]; intros H;
    repeat (apply orb_prop in H; destruct H as [H | H]);
    apply negb_true_iff in H;
    try (apply not_string_fails in H; destruct H as [H1 H2]);
    rewrite ?string_required_iff in *;
    repeat match goal with
           | E : _ = false |- _ => rewrite E; clear E
           end;
    rewrite ?andb_false_r; reflexivity.
Qed.

(** C3: when a required argument is missing or of the wrong type, the
    promise is rejected with the bad request that carries the message of
    the validation error Joi threw, and the world is the one the operation
    started in: the dispatcher was not invoked. *)
Theorem ill_typed_rejected_before_dispatch op w :
  ill_typed op = true ->
  (exists sch v,
      Joi_validate L v sch = false
      /\ fst (invoke L op w)
         = Rejected (Boom_badRequest L (VStr (joi_message L sch v))))
  /\ snd (invoke L op w) = w
  /\ calls (snd (invoke L op w)) = calls w.
Proof.
  intros H. apply ill_typed_fails in H.
  destruct (invoke_invalid op w H) as (sch & v & Hv & E).
  rewrite E. cbn [fst snd]. split; [|split; reflexivity].
  exists sch, v. split; [exact Hv | reflexivity].
Qed.

(** C6: for a string that is not in email format, [emailExist] rejects
    with the bad request carrying the message of the validation error of
    the email schema, and leaves the world, and so the call log, as it
    was. *)
Theorem malformed_email_rejected_before_dispatch
    (email : string) (session : value) w :
  is_email L email = false ->
  emailExist L (VStr email) session w
  = (Rejected (Boom_badRequest L
       (VStr (joi_message L string_email_required (VStr email)))), w)
  /\ calls (snd (emailExist L (VStr email) session w)) = calls w.
Proof.
  intros H.
  assert (E : emailExist L (VStr email) session w
              = (Rejected (Boom_badRequest L
                   (VStr (joi_message L string_email_required (VStr email)))), w)).
  { unfold emailExist, new_Promise, bind, Joi_assert.
    cbn [Joi_validate]. rewrite H, andb_false_r. reflexivity. }
  rewrite E. split; reflexivity.
Qed.

(** ** One call per invocation *)

(** C8: whatever the client returns or raises, an invocation applies a
    method of the client at most once.  When every assertion passes, the
    log grows by the one entry holding the request and what that single
    application answered, and the backing service is in the state that
    single application left; otherwise nothing is logged and the backing
    service is untouched. *)
Theorem dispatcher_invoked_at_most_once op w :
  exists l,
    calls (snd (invoke L op w)) = (calls w ++ l)%list
    /\ (List.length l <= 1)%nat
    /\ if validates L op
       then l = [{| call_request := request_of op;
                    call_result := fst (client_answer op w) |}]
            /\ backend (snd (invoke L op w)) = snd (client_answer op w)
       else l = [] /\ backend (snd (invoke L op w)) = backend w.
Proof.
  destruct (invoke_run op w) as [[Hv (sch & v & _ & E)] | [Hv (res & b & D & E)]];
    rewrite E, Hv; cbn [snd recorded calls backend].
  - exists []. rewrite app_nil_r. repeat split. cbn. lia.
  - assert (Ha : client_answer op w = (res, b)).
    { rewrite <- D. destruct op; reflexivity. }
    rewrite Ha. cbn [fst snd].
    eexists. split; [reflexivity|]. cbn [List.length]. repeat split. lia.
Qed.

(** ** The password update request *)

Lemma lookup_Permutation (k : string) (l l' : list (string * value)) :
  Permutation l l' -> NoDup (map fst l') -> lookup k l = lookup k l'.
Proof.
  induction 1 as [| [k1 v1] l l' Hp IH | [k1 v1] [k2 v2] l | l l' l'' H1 IH1 H2 IH2];
    intros Hnd.
  - reflexivity.
  - cbn. inversion Hnd; subst. rewrite IH by assumption. reflexivity.
  - cbn. destruct (String.eqb k k2) eqn:E2; destruct (String.eqb k k1) eqn:E1;
      try reflexivity.
    apply String.eqb_eq in E1, E2. subst.
    inversion Hnd as [| ? ? Hin _]; subst. exfalso. apply Hin. left. reflexivity.
  - rewrite IH1, IH2; try assumption; try reflexivity.
    apply (Permutation_NoDup (l := map fst l'')); [|assumption].
    apply Permutation_map, Permutation_sym, H2.
Qed.

Lemma filter_Permutation (A : Type) (f : A -> bool) (l l' : list A) :
  Permutation l l' -> Permutation (filter f l) (filter f l').
Proof.
  induction 1 as [| x l l' Hp IH | x y l | l l' l'' H1 IH1 H2 IH2]; cbn.
  - constructor.
  - destruct (f x); [constructor|]; assumption.
  - destruct (f x), (f y); try apply Permutation_refl. constructor.
  - eapply Permutation_trans; eassumption.
Qed.

(** C5: for a params object holding exactly non-empty strings [userId],
    [oldPassword] and [newPassword], in any order, and a non-empty session
    string, [findByIdAndUpdatePassword] applies [put] of the client once,
    to '/admin/users/' + userId + '/password', with a body that holds exactly
    the old and the new password and not the userId: the log grows by that
    one request with what [put] answered, and the backing service is in the
    state that application of [put] left. *)
Theorem update_password_issues_one_PUT
    (userId oldPassword newPassword session : string)
    (props : list (string * value)) w :
  Permutation props [("userId", VStr userId);
                     ("oldPassword", VStr oldPassword);
                     ("newPassword", VStr newPassword)] ->
  userId <> "" -> oldPassword <> "" -> newPassword <> "" -> session <> "" ->
  exists payload,
    Permutation payload [("oldPassword", VStr oldPassword);
                         ("newPassword", VStr newPassword)]
    /\ lookup "userId" payload = None
    /\ calls (snd (findByIdAndUpdatePassword L (VObj props) (VStr session) w))
       = (calls w ++
          [{| call_request :=
                {| req_verb := PUT;
                   req_path := "/admin/users/" ++ userId ++ "/password";
                   req_body := Some (VObj payload);
                   req_meta := _setHeader (VStr session) |};
              call_result :=
                fst (put (client (this w))
                         ("/admin/users/" ++ userId ++ "/password")
                         (VObj payload) (_setHeader (VStr session))
                         (backend w)) |}])%list
    /\ backend (snd (findByIdAndUpdatePassword L (VObj props) (VStr session) w))
       = snd (put (client (this w))
                  ("/admin/users/" ++ userId ++ "/password")
                  (VObj payload) (_setHeader (VStr session))
                  (backend w)).
Proof.
  intros Hp Hu Ho Hn Hs.
  assert (Hnd : NoDup (map fst [("userId", VStr userId);
                                ("oldPassword", VStr oldPassword);
                                ("newPassword", VStr newPassword)])).
  { cbn. repeat constructor; cbn; intuition discriminate. }
  pose proof (lookup_Permutation "userId" _ _ Hp Hnd) as Lu.
  pose proof (lookup_Permutation "oldPassword" _ _ Hp Hnd) as Lo.
  pose proof (lookup_Permutation "newPassword" _ _ Hp Hnd) as Ln.
  cbn in Lu, Lo, Ln.
  apply String.eqb_neq in Hu, Ho, Hn, Hs.
  set (op := op_findByIdAndUpdatePassword (VObj props) (VStr session)).
  assert (Hv : validates L op = true).
  { cbn [validates op]. unfold prop, field. rewrite Lu, Lo, Ln.
    cbn [Joi_validate]. rewrite Hu, Ho, Hn, Hs. reflexivity. }
  change (findByIdAndUpdatePassword L (VObj props) (VStr session) w)
    with (invoke L op w).
  destruct (invoke_run op w) as [[Hv' _] | [_ (res & b & D & E)]];
    [rewrite Hv in Hv'; discriminate Hv'|].
  rewrite E. cbn [snd recorded calls backend request_of op rest_without].
  unfold dispatch in D.
  cbn [op request_of req_verb req_path req_meta req_body rest_without] in D.
  unfold prop, field in D |- *. rewrite Lu in D |- *. cbn [ToString] in D |- *.
  pose proof (filter_Permutation _
       (fun kv : string * value => negb (String.eqb (fst kv) "userId")) _ _ Hp) as Hf.
  exists (filter (fun kv : string * value => negb (String.eqb (fst kv) "userId")) props).
  rewrite D. cbn [fst snd].
  split; [exact Hf | split; [|split; reflexivity]].
  rewrite (lookup_Permutation "userId" _ _ Hf); [reflexivity|].
  cbn. repeat constructor; cbn; intuition discriminate.
Qed.

(** ** Reading twice *)

(** C9: two successive invocations of [findById] with the same arguments,
    against a client that answers the GET the same way both times, settle
    the same way, and neither invocation changes the facet object. *)
Theorem findById_twice_same_outcome (userId session : value) w :
  let first := findById L userId session w in
  let second := findById L userId session (snd first) in
  fst (get (client (this w)) ("/admin/users/" ++ ToString userId)
           (_setHeader session) (backend w))
  = fst (get (client (this w)) ("/admin/users/" ++ ToString userId)
             (_setHeader session) (backend (snd first))) ->
  fst first = fst second
  /\ this (snd first) = this w
  /\ this (snd second) = this w.
Proof.
  intros first second Hsame. subst first second.
  change (@findById St L userId session)
    with (@invoke St L (op_findById userId session)) in *.
  set (op := op_findById userId session) in *.
  destruct (invoke_run op w) as [[Hv (sch & v & _ & E)] | [Hv (res & b & D & E)]].
  - rewrite E. cbn [fst snd]. rewrite E. cbn [fst snd]. repeat split.
  - rewrite E in *. cbn [fst snd] in *.
    destruct (invoke_run op (recorded w (request_of op) res b))
      as [[Hv' _] | [_ (res' & b' & D' & E')]];
      [rewrite Hv in Hv'; discriminate Hv'|].
    rewrite E'. cbn [fst snd recorded this] in *.
    cbn [backend recorded] in Hsame.
    unfold dispatch in D, D'. cbn [op request_of req_verb req_path req_meta] in D, D'.
    rewrite D in Hsame. cbn [backend recorded this] in D'. rewrite D' in Hsame.
    cbn [fst] in Hsame. subst res'. repeat split.
Qed.

End Properties.

(** * Concrete runs *)

Import Stub.
Import CallStub.

Lemma lib_keeps_string_message : keeps_string_message lib.
Proof. intros s _. reflexivity. Qed.

Lemma lib_message_is_string : message_is_string lib.
Proof. intros m. eexists. reflexivity. Qed.

Lemma boom_like_keeps_string_message : keeps_string_message boom_like.
Proof. intros [| c s] H; [contradiction H; reflexivity | reflexivity]. Qed.

(** C1 fails as stated, twice over.  A returned 404 response resolves the
    promise of [findById]; it does not reject it.  And the message of the
    error is not always the message field verbatim: for an empty message
    field it is the reason phrase that [Boom.badRequest] puts in its
    place. *)
Lemma returned_non_200_neither_rejected_nor_verbatim :
  let run := findById lib (VStr "u1") token (facing (Returns not_found)) in
  let blank := findById boom_like (VStr "u1") token (facing (Returns blank_message)) in
  (map call_result (calls (snd run)) = [Returns not_found]
   /\ status_other not_found = true
   /\ fst run = Resolved (Boom_badRequest lib (VStr "Not found"))
   /\ forall e, fst run <> Rejected e)
  /\ (map call_result (calls (snd blank)) = [Returns blank_message]
      /\ status_other blank_message = true
      /\ field blank_message "message" = Some (VStr "")
      /\ exists e,
           fst blank = Resolved e
           /\ prop e "message" = VStr "Bad Request"
           /\ prop e "message" <> VStr "").
Proof.
  cbv zeta. split.
  - repeat split. intros e H. discriminate H.
  - repeat split. eexists. repeat split. discriminate.
Qed.

Lemma non_200_response_witness :
  let w := facing (Returns not_found) in
  let op := op_findById (VStr "u1") token in
  status_other not_found = true
  /\ field not_found "message" = Some (VStr "Not found")
  /\ fst (invoke boom_like op w)
     = Resolved (Boom_badRequest boom_like (VStr "Not found"))
  /\ exists e,
       fst (invoke boom_like op w) = Resolved e
       /\ prop e "message" = VStr "Not found".
Proof.
  cbv zeta.
  pose proof (non_200_response_resolves_with_bad_request boom_like
                (op_findById (VStr "u1") token) (facing (Returns not_found))
                _ _ _ not_found (surjective_pairing _) eq_refl eq_refl)
    as (H1 & _ & H3).
  split; [reflexivity | split; [reflexivity | split; [exact H1|]]].
  apply (H3 boom_like_keeps_string_message "Not found");
    [reflexivity | discriminate].
Defined.

(** C2 fails as stated: a returned response with status 200 whose data
    field holds [undefined] resolves with an empty object, not with the
    field's value. *)
Lemma undefined_data_resolves_with_empty_object :
  let run := findById lib (VStr "u1") token (facing (Returns undefined_data)) in
  map call_result (calls (snd run)) = [Returns undefined_data]
  /\ status_200 undefined_data = true
  /\ field undefined_data "data" = Some VUndefined
  /\ fst run = Resolved (VObj [])
  /\ fst run <> Resolved VUndefined.
Proof.
  cbv zeta. repeat split. intros H. discriminate H.
Qed.

Lemma status_200_response_witness :
  let w := facing (Returns found) in
  let op := op_findById (VStr "55e4a3bd6be6b45210833fae") token in
  status_200 found = true
  /\ fst (invoke lib op w) = Resolved ana.
Proof.
  cbv zeta. split; [reflexivity|].
  refine (proj1 (status_200_response_resolves_with_data lib
                   (op_findById (VStr "55e4a3bd6be6b45210833fae") token)
                   (facing (Returns found)) _ _ _ found _ _ _) ana _ _).
  - apply surjective_pairing.
  - reflexivity.
  - reflexivity.
  - reflexivity.
  - discriminate.
Defined.

Lemma missing_message_witness :
  let w := facing (Raises teapot) in
  let op := op_emailExist (VStr "ana@x.com") token in
  status_other teapot = true
  /\ field teapot "message" = None
  /\ fst (invoke lib op w)
     = Rejected (Boom_badRequest lib (VStr "No error message reported!")).
Proof.
  cbv zeta. split; [reflexivity | split; [reflexivity|]].
  refine (missing_message_gets_placeholder lib
            (op_emailExist (VStr "ana@x.com") token) (facing (Raises teapot))
            _ _ _ (Raises teapot) _ _ _ _).
  - apply surjective_pairing.
  - reflexivity.
  - reflexivity.
  - reflexivity.
Defined.

Lemma raised_status_200_witness :
  let w := facing (Raises found) in
  let op := op_findByIdAndUpdatePassword password_params token in
  status_200 found = true
  /\ fst (invoke lib op w) = Rejected ana.
Proof.
  cbv zeta. split; [reflexivity|].
  refine (proj1 (raised_status_200_rejects_with_data lib
                   (op_findByIdAndUpdatePassword password_params token)
                   (facing (Raises found)) _ _ _ found _ _ _)).
  - apply surjective_pairing.
  - reflexivity.
  - reflexivity.
Defined.

(** C7 fails as stated, twice over.  When the client raises a value whose
    status is 200 and that has no data, [findById] rejects with an empty
    object, which has neither a status nor a message.  And an ordinary
    rejection, here for an identifier that is a number, is the error
    [Boom.badRequest] returns: an Error instance, not a plain object, with
    its status code under [output] and no [status] property. *)
Lemma rejection_is_no_plain_status_message_object :
  let run := findById lib (VStr "u1") token (facing (Raises raised_200)) in
  let refused := findById lib (VNum 42) token (facing (Returns found)) in
  (fst run = Rejected (VObj [])
   /\ plain_status_message (VObj []) = false
   /\ lookup "status" [] = None
   /\ lookup "message" [] = None)
  /\ (fst refused = Rejected (Boom_badRequest lib (VStr "value must be a string"))
      /\ plain_status_message (Boom_badRequest lib (VStr "value must be a string")) = false
      /\ field (Boom_badRequest lib (VStr "value must be a string")) "status" = None
      /\ prop (Boom_badRequest lib (VStr "value must be a string")) "message"
         = VStr "value must be a string").
Proof.
  cbv zeta. repeat split.
Qed.

Lemma rejection_values_witness :
  let w := facing (Returns found) in
  let op := op_findById (VNum 42) token in
  fst (invoke lib op w) = Rejected (Boom_badRequest lib (VStr "value must be a string"))
  /\ exists s,
       prop (Boom_badRequest lib (VStr "value must be a string")) "message" = VStr s.
Proof.
  cbv zeta. split; [reflexivity|].
  destruct (rejection_values lib (op_findById (VNum 42) token)
              (facing (Returns found))
              (Boom_badRequest lib (VStr "value must be a string"))
              (facing (Returns found)) eq_refl)
    as [(m & _ & _ & Hs) | (r & ex & Hlog & _)].
  - exact (Hs lib_message_is_string).
  - discriminate Hlog.
Defined.

Lemma ill_typed_witness :
  let w := facing (Returns found) in
  let op := op_findById (VNum 42) token in
  ill_typed op = true
  /\ fst (invoke lib op w)
     = Rejected (Boom_badRequest lib (VStr "value must be a string"))
  /\ calls (snd (invoke lib op w)) = [].
Proof.
  cbv zeta. split; [reflexivity|].
  destruct (ill_typed_rejected_before_dispatch lib (op_findById (VNum 42) token)
              (facing (Returns found)) eq_refl) as (_ & _ & Hcalls).
  split; [reflexivity | exact Hcalls].
Defined.

Lemma malformed_email_witness :
  let w := facing (Returns found) in
  is_email lib "not-an-email" = false
  /\ emailExist lib (VStr "not-an-email") token w
     = (Rejected (Boom_badRequest lib (VStr "value must be a valid email")), w).
Proof.
  cbv zeta. split; [reflexivity|].
  exact (proj1 (malformed_email_rejected_before_dispatch lib "not-an-email" token
                  (facing (Returns found)) eq_refl)).
Defined.

Lemma update_password_witness :
  exists payload,
    Permutation payload [("oldPassword", VStr "a"); ("newPassword", VStr "b")]
    /\ lookup "userId" payload = None
    /\ calls (snd (findByIdAndUpdatePassword lib password_params token
                     (facing (Returns found))))
       = [{| call_request :=
               {| req_verb := PUT;
                  req_path := "/admin/users/u1/password";
                  req_body := Some (VObj payload);
                  req_meta := _setHeader token |};
             call_result := Returns found |}]
    /\ backend (snd (findByIdAndUpdatePassword lib password_params token
                       (facing (Returns found))))
       = 1%nat.
Proof.
  apply (update_password_issues_one_PUT lib "u1" "a" "b"
           "eyJhbGciOiJIUzI1NiIsInR5cCI6IkpXVCJ9"
           [("oldPassword", VStr "a"); ("userId", VStr "u1"); ("newPassword", VStr "b")]
           (facing (Returns found))).
  - apply perm_swap.
  - discriminate.
  - discriminate.
  - discriminate.
  - discriminate.
Defined.

Lemma findById_twice_witness :
  let w := facing (Returns found) in
  let first := findById lib (VStr "55e4a3bd6be6b45210833fae") token w in
  let second := findById lib (VStr "55e4a3bd6be6b45210833fae") token (snd first) in
  backend (snd first) <> backend w
  /\ fst first = fst second
  /\ fst first = Resolved ana.
Proof.
  cbv zeta. split; [discriminate|].
  split; [|reflexivity].
  exact (proj1 (findById_twice_same_outcome lib (VStr "55e4a3bd6be6b45210833fae")
                  token (facing (Returns found)) eq_refl)).
Defined.

(** * Further properties of the class *)

Section Pipeline.

Context {St : Type}.
Variable L : Library.

Implicit Types (w : world St) (op : operation) (o : outcome).

(** ** What is sent *)

(** X1: the request an operation sends carries, as its only metadata, a
    [headers] object whose only entry is [authorization], holding the
    session argument verbatim; that session is a non-empty string. *)
Theorem request_carries_session op w o w' (r : request) (res : transport_result) :
  invoke L op w = (o, w') ->
  calls w' = (calls w ++ [{| call_request := r; call_result := res |}])%list ->
  req_meta r = VObj [("headers", VObj [("authorization", session_of op)])]
  /\ prop (prop (req_meta r) "headers") "authorization" = session_of op
  /\ nonempty_string (session_of op) = true.
Proof.
  intros Hrun Hlog.
  destruct (logged_call L _ _ _ _ _ _ Hrun Hlog) as (Hv & -> & _).
  destruct op as [u s | p s | e s]; cbn [validates] in Hv;
    repeat (apply andb_prop in Hv; destruct Hv as [Hv ?]);
    rewrite <- (string_required_iff L); cbn [session_of];
    repeat split; assumption.
Qed.

(** X2: for a non-empty identifier and session, [findById] records exactly
    one call: a GET, without body, to '/admin/users/' followed by the
    identifier as given, answered by the client of the facet. *)
Theorem findById_issues_one_GET (userId session : string) w :
  userId <> "" -> session <> "" ->
  calls (snd (findById L (VStr userId) (VStr session) w))
  = (calls w ++
     [{| call_request :=
           {| req_verb := GET;
              req_path := "/admin/users/" ++ userId;
              req_body := None;
              req_meta := _setHeader (VStr session) |};
         call_result :=
           fst (get (client (this w)) ("/admin/users/" ++ userId)
                    (_setHeader (VStr session)) (backend w)) |}])%list.
Proof.
  intros Hu Hs. apply String.eqb_neq in Hu, Hs.
  set (op := op_findById (VStr userId) (VStr session)).
  change (findById L (VStr userId) (VStr session) w) with (invoke L op w).
  assert (Hv : validates L op = true).
  { cbn [validates op Joi_validate]. rewrite Hu, Hs. reflexivity. }
  destruct (invoke_run L op w) as [[Hv' _] | [_ (res & b & D & E)]];
    [rewrite Hv in Hv'; discriminate Hv'|].
  rewrite E. unfold dispatch in D.
  cbn [op request_of req_verb req_path req_meta req_body ToString] in D.
  rewrite D. reflexivity.
Qed.

(** X3: for a non-empty string in email format and a non-empty session,
    [emailExist] records exactly one call: a POST to
    '/admin/users/email/exist' whose body is an object with the single
    field [email]. *)
Theorem emailExist_issues_one_POST (email session : string) w :
  email <> "" -> is_email L email = true -> session <> "" ->
  calls (snd (emailExist L (VStr email) (VStr session) w))
  = (calls w ++
     [{| call_request :=
           {| req_verb := POST;
              req_path := "/admin/users/email/exist";
              req_body := Some (VObj [("email", VStr email)]);
              req_meta := _setHeader (VStr session) |};
         call_result :=
           fst (post (client (this w)) "/admin/users/email/exist"
                     (VObj [("email", VStr email)])
                     (_setHeader (VStr session)) (backend w)) |}])%list.
Proof.
  intros He Hf Hs. apply String.eqb_neq in He, Hs.
  set (op := op_emailExist (VStr email) (VStr session)).
  change (emailExist L (VStr email) (VStr session) w) with (invoke L op w).
  assert (Hv : validates L op = true).
  { cbn [validates op Joi_validate]. rewrite He, Hf, Hs. reflexivity. }
  destruct (invoke_run L op w) as [[Hv' _] | [_ (res & b & D & E)]];
    [rewrite Hv in Hv'; discriminate Hv'|].
  rewrite E. unfold dispatch in D.
  cbn [op request_of req_verb req_path req_meta req_body ToString] in D.
  rewrite D. reflexivity.
Qed.

Lemma lookup_filter_other (k excluded : string) (props : list (string * value)) :
  lookup k (filter (fun kv => negb (String.eqb (fst kv) excluded)) props)
  = if String.eqb k excluded then None else lookup k props.
Proof.
  induction props as [| [k' v] props IH]; cbn.
  - destruct (String.eqb k excluded); reflexivity.
  - destruct (String.eqb k' excluded) eqn:E'; cbn.
    + rewrite IH. destruct (String.eqb k excluded) eqn:E; [reflexivity|].
      destruct (String.eqb k k') eqn:Ek; [|reflexivity].
      apply String.eqb_eq in Ek, E'. subst.
      rewrite String.eqb_refl in E. discriminate E.
    + rewrite IH. destruct (String.eqb k k') eqn:Ek; [|reflexivity].
      apply String.eqb_eq in Ek. subst. rewrite E'. reflexivity.
Qed.

(** X4: [findByIdAndUpdatePassword] forwards whatever else [params] holds:
    for any [params] that passes validation, a plain object or an Error
    instance, [put] of the client is applied once, to the path of its
    [userId], with a body in which every own enumerable property of
    [params] other than [userId] reads as it does in [params], and which
    has no [userId]. *)
Theorem update_password_forwards_other_fields (params session : value) w :
  validates L (op_findByIdAndUpdatePassword params session) = true ->
  exists userId payload,
    prop params "userId" = VStr userId
    /\ calls (snd (findByIdAndUpdatePassword L params session w))
       = (calls w ++
          [{| call_request :=
                {| req_verb := PUT;
                   req_path := "/admin/users/" ++ userId ++ "/password";
                   req_body := Some (VObj payload);
                   req_meta := _setHeader session |};
              call_result :=
                fst (put (client (this w))
                         ("/admin/users/" ++ userId ++ "/password")
                         (VObj payload) (_setHeader session) (backend w)) |}])%list
    /\ backend (snd (findByIdAndUpdatePassword L params session w))
       = snd (put (client (this w))
                  ("/admin/users/" ++ userId ++ "/password")
                  (VObj payload) (_setHeader session) (backend w))
    /\ lookup "userId" payload = None
    /\ forall k, k <> "userId" ->
                 lookup k payload = lookup k (own_enumerable params).
Proof.
  intros Hv.
  set (op := op_findByIdAndUpdatePassword params session) in *.
  change (findByIdAndUpdatePassword L params session w) with (invoke L op w).
  destruct (invoke_run L op w) as [[Hv' _] | [_ (res & b & D & E)]];
    [rewrite Hv in Hv'; discriminate Hv'|].
  cbn [validates op] in Hv.
  repeat (apply andb_prop in Hv; destruct Hv as [Hv ?]).
  assert (Hu : exists u, prop params "userId" = VStr u).
  { destruct (prop params "userId") as [| | | | u | |];
      try discriminate H2. exists u. reflexivity. }
  destruct Hu as [u Hu].
  assert (Hr : rest_without "userId" params
               = VObj (filter (fun kv => negb (String.eqb (fst kv) "userId"))
                              (own_enumerable params))).
  { destruct params; try discriminate Hv; reflexivity. }
  rewrite E. cbn [snd recorded calls backend request_of op].
  unfold dispatch in D. cbn [op request_of req_verb req_path req_meta req_body] in D.
  rewrite Hu, Hr in D |- *. cbn [ToString] in D |- *.
  exists u. eexists. rewrite D. cbn [fst snd].
  split; [reflexivity | split; [reflexivity | split; [reflexivity | split]]].
  - apply lookup_filter_other.
  - intros k Hk. rewrite lookup_filter_other.
    apply String.eqb_neq in Hk. rewrite Hk. reflexivity.
Qed.

(** ** How the promise settles *)

(** X5: when the transport call returns [null] or [undefined], reading its
    status throws inside [try]; the promise is rejected with the bad
    request that carries the engine's TypeError message. *)
Theorem nullish_response_is_rejected op w o w' (r : request) (resp : value) :
  invoke L op w = (o, w') ->
  calls w' = (calls w ++ [{| call_request := r; call_result := Returns resp |}])%list ->
  nullish resp = true ->
  o = Rejected (Boom_badRequest L (VStr (type_error_message L resp "status"))).
Proof.
  intros Hrun Hlog Hn.
  destruct (logged_call L _ _ _ _ _ _ Hrun Hlog) as (_ & _ & ->).
  cbn [settle]. rewrite Hn. reflexivity.
Qed.

(** X6: when the transport call raises [null] or [undefined], the [catch]
    block itself throws on reading the status, and the promise is left
    unsettled: neither [resolve] nor [reject] is called. *)
Theorem nullish_raise_leaves_promise_pending
    op w o w' (r : request) (ex : value) :
  invoke L op w = (o, w') ->
  calls w' = (calls w ++ [{| call_request := r; call_result := Raises ex |}])%list ->
  nullish ex = true ->
  o = Pending.
Proof.
  intros Hrun Hlog Hn.
  destruct (logged_call L _ _ _ _ _ _ Hrun Hlog) as (_ & _ & ->).
  cbn [settle]. rewrite Hn. reflexivity.
Qed.

(** X7: the promise is resolved exactly when the arguments pass validation
    and the transport call returns a value other than [null] and
    [undefined]; the status of that value plays no part in it. *)
Theorem resolved_iff_returned op w :
  (exists v, fst (invoke L op w) = Resolved v)
  <-> validates L op = true
      /\ exists resp,
           fst (dispatch (client (this w)) (request_of op) (backend w)) = Returns resp
           /\ nullish resp = false.
Proof.
  destruct (invoke_run L op w) as [[Hv (sch & x & _ & E)] | [Hv (res & b & D & E)]];
    rewrite E; cbn [fst].
  - split; [intros [v H]; discriminate H|].
    intros [Hv' _]. rewrite Hv in Hv'. discriminate Hv'.
  - rewrite D. cbn [fst]. split.
    + intros [v H]. split; [exact Hv|].
      destruct res as [resp | ex]; cbn [settle] in H.
      * exists resp. split; [reflexivity|].
        destruct (nullish resp); [discriminate H | reflexivity].
      * destruct (nullish ex); [discriminate H|].
        destruct (strict_neq_num (prop ex "status") 200); discriminate H.
    + intros [_ (resp & -> & Hn)]. cbn [settle]. rewrite Hn.
      destruct (strict_neq_num (prop resp "status") 200); eexists; reflexivity.
Qed.

(** X8: two invocations, of any two operations with any arguments that
    pass validation, settle in the same way whenever their transport calls
    come back with the same result: the normaliser is shared and looks at
    nothing else. *)
Theorem same_result_same_outcome op1 op2 w1 w2 :
  validates L op1 = true ->
  validates L op2 = true ->
  fst (dispatch (client (this w1)) (request_of op1) (backend w1))
  = fst (dispatch (client (this w2)) (request_of op2) (backend w2)) ->
  fst (invoke L op1 w1) = fst (invoke L op2 w2).
Proof.
  intros H1 H2 Hres.
  destruct (invoke_run L op1 w1) as [[Hv _] | [_ (res1 & b1 & D1 & E1)]];
    [rewrite H1 in Hv; discriminate Hv|].
  destruct (invoke_run L op2 w2) as [[Hv _] | [_ (res2 & b2 & D2 & E2)]];
    [rewrite H2 in Hv; discriminate Hv|].
  rewrite E1, E2. rewrite D1, D2 in Hres. cbn [fst] in *.
  rewrite Hres. reflexivity.
Qed.

(** X9: an Error instance, returned or raised, whose status is not 200
    (a network failure has none) always supplies its own message, an empty
    one included: the placeholder is not used for it. *)
Theorem error_instance_keeps_its_message
    op w o w' (r : request) (res : transport_result)
    (name message : string) (props : list (string * value)) :
  invoke L op w = (o, w') ->
  calls w' = (calls w ++ [{| call_request := r; call_result := res |}])%list ->
  carried res = VError name message props ->
  status_other (VError name message props) = true ->
  match res with
  | Returns _ => o = Resolved (Boom_badRequest L (VStr message))
  | Raises _ => o = Rejected (Boom_badRequest L (VStr message))
  end.
Proof.
  intros Hrun Hlog Hc Hst.
  destruct (logged_call L _ _ _ _ _ _ Hrun Hlog) as (_ & _ & ->).
  apply andb_prop in Hst. destruct Hst as [_ Hs].
  destruct res as [v | v]; cbn [carried] in Hc; subst v;
    cbn [settle nullish]; rewrite Hs; reflexivity.
Qed.

(** ** Validation *)

(** X10: validation is fail-fast in source order: when some assertion
    fails, the promise is rejected with the bad request carrying the
    message for the first failing one and the world is left as it was;
    when none fails, the operation goes on to its call. *)
Theorem rejection_reports_first_failure op w :
  invoke L op w
  = match first_failure L op with
    | Some (v, sch) =>
        (Rejected (Boom_badRequest L (VStr (joi_message L sch v))), w)
    | None => dispatched L op w
    end.
Proof.
  destruct op as [u s | p s | e s];
    unfold first_failure; cbn [assertions find fst snd invoke].
  - unfold findById, dispatched, new_Promise, bind, Joi_assert.
    destruct (Joi_validate L u string_required); cbn [negb]; [|reflexivity].
    destruct (Joi_validate L s string_required); cbn [negb]; reflexivity.
  - unfold findByIdAndUpdatePassword, dispatched, new_Promise, bind, Joi_assert.
    destruct (Joi_validate L p object_required) eqn:Hp; cbn [negb]; [|reflexivity].
    destruct p; try discriminate Hp;
      cbv beta iota delta [member ret];
      (destruct (Joi_validate L (prop _ "userId") string_required);
       cbn [negb]; [|reflexivity]);
      (destruct (Joi_validate L (prop _ "oldPassword") string_required);
       cbn [negb]; [|reflexivity]);
      (destruct (Joi_validate L (prop _ "newPassword") string_required);
       cbn [negb]; [|reflexivity]);
      (destruct (Joi_validate L s string_required); cbn [negb]; reflexivity).
  - unfold emailExist, dispatched, new_Promise, bind, Joi_assert.
    destruct (Joi_validate L e string_email_required); cbn [negb]; [|reflexivity].
    destruct (Joi_validate L s string_required); cbn [negb]; reflexivity.
Qed.

Lemma empty_argument_fails op : empty_argument op = true -> validates L op = false.
Proof.
  destruct op as [u s | p s | e s]; cbn [empty_argument validates]; intros H;
    repeat (apply orb_prop in H; destruct H as [H | H]);
    match type of H with
    | match ?v with _ => _ end = true =>
        destruct v; try discriminate H; cbn [Joi_validate]; rewrite H
    end;
    cbn [negb andb]; rewrite ?andb_false_r; reflexivity.
Qed.

(** X11: an identifier, a session or an email given as the empty string is
    refused like a missing one: the promise is rejected with the bad
    request carrying Joi's message and the dispatcher is not invoked. *)
Theorem empty_argument_rejected_before_dispatch op w :
  empty_argument op = true ->
  (exists sch v,
      Joi_validate L v sch = false
      /\ fst (invoke L op w)
         = Rejected (Boom_badRequest L (VStr (joi_message L sch v))))
  /\ snd (invoke L op w) = w.
Proof.
  intros H. apply empty_argument_fails in H.
  destruct (invoke_invalid L op w H) as (sch & v & Hv & E).
  rewrite E. cbn [fst snd]. split; [|reflexivity].
  exists sch, v. split; [exact Hv | reflexivity].
Qed.

(** ** What an invocation leaves behind *)

(** X12: no operation writes to the facet object, whatever the outcome;
    and the state of the backing service changes only through the single
    client call: it is untouched when validation fails, and otherwise it is
    the state in which that call left it. *)
Theorem invocation_footprint op w :
  this (snd (invoke L op w)) = this w
  /\ backend (snd (invoke L op w))
     = if validates L op
       then snd (dispatch (client (this w)) (request_of op) (backend w))
       else backend w.
Proof.
  destruct (invoke_run L op w) as [[Hv (sch & v & _ & E)] | [Hv (res & b & D & E)]];
    rewrite E, Hv; cbn [snd recorded this backend].
  - split; reflexivity.
  - rewrite D. split; reflexivity.
Qed.

End Pipeline.

Section ConstructionProperties.

Context {St : Type}.
Variable L : Library.
Variable not_a_function_message : value -> string -> string.

(** X14: when [options], or its [parent], is missing or not an object,
    construction throws the validation error of the object schema for that
    value, as Joi made it: unlike in the operations, it is not turned into
    a bad request. *)
Theorem constructor_throws_validation_error (v : value) :
  Joi_validate L v object_required = false
  \/ Joi_validate L (prop v "parent") object_required = false ->
  exists x,
    Joi_validate L x object_required = false
    /\ (x = v \/ x = prop v "parent")
    /\ constructor (St := St) L not_a_function_message (plain_options v)
       = Throw (ValidationError L object_required x).
Proof.
  intros H. cbn [constructor].
  destruct (Joi_validate L v object_required) eqn:Hv; cbn [negb].
  - destruct H as [H | H]; [discriminate H|].
    rewrite H. cbn [negb]. exists (prop v "parent").
    split; [exact H | split; [right; reflexivity | reflexivity]].
  - exists v. split; [exact Hv | split; [left; reflexivity | reflexivity]].
Qed.

End ConstructionProperties.

(** * Further concrete runs *)

Lemma request_carries_session_witness :
  let r := {| req_verb := POST;
              req_path := "/admin/users/email/exist";
              req_body := Some (VObj [("email", VStr "ana@x.com")]);
              req_meta := _setHeader token |} in
  map call_request
      (calls (snd (invoke lib (op_emailExist (VStr "ana@x.com") token)
                     (facing (Returns found)))))
  = [r]
  /\ prop (prop (req_meta r) "headers") "authorization" = token.
Proof.
  cbv zeta. split; [reflexivity|].
  exact (proj1 (proj2 (request_carries_session lib
                         (op_emailExist (VStr "ana@x.com") token)
                         (facing (Returns found)) _ _
                         {| req_verb := POST;
                            req_path := "/admin/users/email/exist";
                            req_body := Some (VObj [("email", VStr "ana@x.com")]);
                            req_meta := _setHeader token |}
                         (Returns found)
                         (surjective_pairing _) eq_refl))).
Defined.

Lemma findById_issues_one_GET_witness :
  map (fun c => req_path (call_request c))
      (calls (snd (findById lib (VStr "55e4a3bd6be6b45210833fae") token
                     (facing (Returns found)))))
  = ["/admin/users/55e4a3bd6be6b45210833fae"].
Proof.
  unfold token.
  rewrite (findById_issues_one_GET lib "55e4a3bd6be6b45210833fae"
             "eyJhbGciOiJIUzI1NiIsInR5cCI6IkpXVCJ9" (facing (Returns found)));
    [reflexivity | discriminate | discriminate].
Defined.

Lemma emailExist_issues_one_POST_witness :
  map (fun c => req_body (call_request c))
      (calls (snd (emailExist lib (VStr "ana@x.com") token (facing (Returns found)))))
  = [Some (VObj [("email", VStr "ana@x.com")])].
Proof.
  unfold token.
  rewrite (emailExist_issues_one_POST lib "ana@x.com"
             "eyJhbGciOiJIUzI1NiIsInR5cCI6IkpXVCJ9" (facing (Returns found)));
    [reflexivity | discriminate | reflexivity | discriminate].
Defined.

Lemma update_password_forwards_witness :
  exists userId payload,
    prop failed_lookup "userId" = VStr userId
    /\ calls (snd (findByIdAndUpdatePassword lib failed_lookup token
                     (facing (Returns found))))
       = [{| call_request :=
               {| req_verb := PUT;
                  req_path := "/admin/users/" ++ userId ++ "/password";
                  req_body := Some (VObj payload);
                  req_meta := _setHeader token |};
             call_result := Returns found |}]
    /\ backend (snd (findByIdAndUpdatePassword lib failed_lookup token
                       (facing (Returns found))))
       = 1%nat
    /\ lookup "userId" payload = None
    /\ forall k, k <> "userId" ->
                 lookup k payload = lookup k (own_enumerable failed_lookup).
Proof.
  apply (update_password_forwards_other_fields lib failed_lookup token
           (facing (Returns found))).
  reflexivity.
Defined.

Lemma update_password_forwards_extra_field :
  map (fun c => req_body (call_request c))
      (calls (snd (findByIdAndUpdatePassword lib extended_params token
                     (facing (Returns found)))))
  = [Some (VObj [("oldPassword", VStr "a"); ("newPassword", VStr "b");
                 ("logout", VBool true)])].
Proof. reflexivity. Qed.

Lemma nullish_response_witness :
  fst (invoke lib (op_findById (VStr "u1") token) (facing (Returns VNull)))
  = Rejected (Boom_badRequest lib (VStr "Cannot read property status")).
Proof.
  exact (nullish_response_is_rejected lib (op_findById (VStr "u1") token)
           (facing (Returns VNull)) _ _ _ VNull
           (surjective_pairing _) eq_refl eq_refl).
Defined.

Lemma pending_witness :
  fst (invoke lib (op_findById (VStr "u1") token) (facing (Raises VUndefined)))
  = Pending.
Proof.
  exact (nullish_raise_leaves_promise_pending lib (op_findById (VStr "u1") token)
           (facing (Raises VUndefined)) _ _ _ VUndefined
           (surjective_pairing _) eq_refl eq_refl).
Defined.

Lemma resolved_witness :
  exists v,
    fst (invoke lib (op_findById (VStr "u1") token) (facing (Returns not_found)))
    = Resolved v.
Proof.
  apply (proj2 (resolved_iff_returned lib (op_findById (VStr "u1") token)
                  (facing (Returns not_found)))).
  split; [reflexivity|]. exists not_found. split; reflexivity.
Defined.

Lemma same_result_witness :
  fst (invoke lib (op_findById (VStr "u1") token) (facing (Raises teapot)))
  = fst (invoke lib (op_emailExist (VStr "ana@x.com") token) (facing (Raises teapot))).
Proof.
  apply (same_result_same_outcome lib (op_findById (VStr "u1") token)
           (op_emailExist (VStr "ana@x.com") token)
           (facing (Raises teapot)) (facing (Raises teapot)));
    reflexivity.
Defined.

Lemma error_instance_witness :
  fst (invoke lib (op_findById (VStr "u1") token) (facing (Raises network_error)))
  = Rejected (Boom_badRequest lib (VStr "socket hang up")).
Proof.
  exact (error_instance_keeps_its_message lib (op_findById (VStr "u1") token)
           (facing (Raises network_error)) _ _ _ (Raises network_error)
           "Error" "socket hang up" []
           (surjective_pairing _) eq_refl eq_refl eq_refl).
Defined.

Lemma empty_argument_witness :
  let w := facing (Returns found) in
  let op := op_findById (VStr "") token in
  empty_argument op = true
  /\ is_string (VStr "") = true
  /\ snd (invoke lib op w) = w.
Proof.
  cbv zeta. split; [reflexivity | split; [reflexivity|]].
  exact (proj2 (empty_argument_rejected_before_dispatch lib
                  (op_findById (VStr "") token) (facing (Returns found)) eq_refl)).
Defined.

Lemma constructor_throws_witness :
  exists x,
    Joi_validate lib x object_required = false
    /\ (x = VObj [] \/ x = prop (VObj []) "parent")
    /\ constructor (St := nat) lib not_a_function (plain_options (VObj []))
       = Throw (ValidationError lib object_required x).
Proof.
  apply (constructor_throws_validation_error (St := nat) lib not_a_function (VObj [])).
  right. reflexivity.
Defined.
